(** * Shallow embedding of the execute_command tool of the VS Code MCP server

    Source: src/packages/extension/src/tools/execute_command.ts
    (executeCommandSchema, ExecuteCommandTool, executeCommandToolHandler).

    The code is asynchronous and talks to VS Code.  It is modelled as a small
    state-and-trace monad: the state is the terminal registry, and every
    interaction with the outside world (configuration read, confirmation
    prompt, terminal acquisition, process start, timer, race, delay) is
    recorded as an [effect] in the trace.  The answers of the outside world
    (the configuration value, the human's answer, the process events that
    have been delivered when the tool reads its buffers) come from a
    [World] record. *)

From Stdlib Require Import String Ascii List Bool ZArith Lia.
From Stdlib Require Import Numbers.DecimalString.
Import ListNotations.
Open Scope string_scope.

(** ** JavaScript string helpers *)

Definition nl : string := String (ascii_of_nat 10) EmptyString.

(** JavaScript truthiness of a string: only the empty string is falsy. *)
Definition truthy (s : string) : bool :=
  match s with
  | EmptyString => false
  | String _ _ => true
  end.

(** Characters removed by [String.prototype.trim] that an 8-bit character
    can hold: TAB, LF, VT, FF, CR, SPACE and NO-BREAK SPACE. *)
Definition is_ws (c : ascii) : bool :=
  let n := nat_of_ascii c in
  (((9 <=? n) && (n <=? 13)) || (n =? 32) || (n =? 160))%nat.

Fixpoint trimStart (s : string) : string :=
  match s with
  | EmptyString => EmptyString
  | String c r => if is_ws c then trimStart r else s
  end.

Fixpoint trimEnd (s : string) : string :=
  match s with
  | EmptyString => EmptyString
  | String c r =>
      let r' := trimEnd r in
      if is_ws c && negb (truthy r') then EmptyString else String c r'
  end.

(** [s.trim()] *)
Definition trim (s : string) : string := trimStart (trimEnd s).

(** Template-literal rendering of a JavaScript number (integral values). *)
Definition Z_to_string (x : Z) : string := NilEmpty.string_of_int (Z.to_int x).
Definition nat_to_string (n : nat) : string := NilEmpty.string_of_uint (Nat.to_uint n).

(** ** Tool responses *)

(** Modelled from the spec: [formatResponse.toolResult] and [ToolResponse]
    (src/utils/response, not under src/).  The handler only reads the
    [text] field of a tool result, and the spec describes the result as a
    human-readable text payload, so a tool result is the text it is built
    from. *)
Record ToolResponse := mkToolResponse { text : string }.

Definition toolResult (s : string) : ToolResponse := mkToolResponse s.

(** ** Terminal registry *)

(** Modelled from the spec: [TerminalManager] and its [TerminalInfo]
    (src/integrations/terminal/TerminalManager, not under src/).  Per the
    spec (4.1, 9) the terminals live in the host's terminal API, an implicit
    process-wide singleton; [getOrCreateTerminal cwd] returns an existing live
    terminal bound to [cwd] if there is one and otherwise creates a new one. *)
Record TerminalInfo := mkTerminalInfo {
  id : nat;
  tcwd : string;
  alive : bool
}.

Record Registry := mkRegistry {
  terminals : list TerminalInfo;
  next_id : nat
}.

Definition acquire (cwd : string) (r : Registry) : TerminalInfo * Registry :=
  match find (fun t => alive t && String.eqb (tcwd t) cwd) (terminals r) with
  | Some t => (t, r)
  | None =>
      let t := mkTerminalInfo (next_id r) cwd true in
      (t, mkRegistry (terminals r ++ [t])%list (S (next_id r)))
  end.

(** ** Process events *)

(** The events a process handle emits. *)
Inductive proc_event :=
| Line (l : string)
| Completed
| NoShellIntegration.

(** The closure state the listeners of [execute] update: [result],
    [completed] and whether the warning was shown. *)
Record Listeners := mkListeners {
  l_result : string;
  l_completed : bool;
  l_warned : bool
}.

Definition listeners_init : Listeners := mkListeners EmptyString false false.

(** One event delivered to the [line], [completed] and
    [no_shell_integration] handlers registered by [execute]. *)
Definition on_event (ls : Listeners) (ev : proc_event) : Listeners :=
  match ev with
  | Line line => mkListeners (l_result ls ++ line ++ nl) (l_completed ls) (l_warned ls)
  | Completed => mkListeners (l_result ls) true (l_warned ls)
  | NoShellIntegration => mkListeners (l_result ls) (l_completed ls) true
  end.

Definition deliver (evs : list proc_event) : Listeners :=
  fold_left on_event evs listeners_init.

(** ** Effects and the outside world *)

Inductive effect :=
| EGetConfig (key : string)
| EAsk (command : string)
| ELog (msg : string)
| EAcquire (cwd : string) (tid : nat)
| EShow (tid : nat)
| ERun (tid : nat) (command : string)
| EListen (event : string)
| ETimer (ms : Z)
| ERace
| EDelay (ms : Z).

(** Effects that make [execute] wait on the process or on a timer. *)
Definition is_wait (e : effect) : bool :=
  match e with
  | ETimer _ | ERace | EDelay _ => true
  | _ => false
  end.

Definition is_session_work (e : effect) : bool :=
  match e with
  | EAcquire _ _ | EShow _ | ERun _ _ | EListen _ => true
  | _ => false
  end.

Record World := mkWorld {
  (** value of [mcpServer.confirmNonDestructiveCommands] *)
  w_confirmNonDestructiveCommands : bool;
  (** what [ConfirmationUI.confirm] resolves to *)
  w_user_answer : string;
  (** the process events delivered when [execute] reads [result] and
      [completed], i.e. after the race and the 50 ms delay *)
  w_observed : list proc_event
}.

(** ** The state-and-trace monad *)

Definition M (A : Type) : Type := Registry -> A * Registry * list effect.

Definition ret {A} (a : A) : M A := fun r => (a, r, []).

Definition bind {A B} (m : M A) (k : A -> M B) : M B :=
  fun r =>
    let '(a, r1, t1) := m r in
    let '(b, r2, t2) := k a r1 in
    (b, r2, (t1 ++ t2)%list).

Definition emit (e : effect) : M unit := fun r => (tt, r, [e]).

Notation "x <- m ;; k" := (bind m (fun x => k))
  (at level 61, m at next level, right associativity).
Notation "m ;;; k" := (bind m (fun _ => k))
  (at level 61, right associativity).

Definition getOrCreateTerminal (cwd : string) : M TerminalInfo :=
  fun r => let '(t, r') := acquire cwd r in (t, r', [EAcquire cwd (id t)]).

(** ** ExecuteCommandTool *)

Definition DEFAULT_TIMEOUT : Z := 300000.

(** [ExecuteCommandTool.ask]: the confirmation prompt. *)
Definition ask (w : World) (command : string) : M string :=
  emit (EAsk command) ;;; ret (w_user_answer w).

(** [customCwd || this.cwd] *)
Definition effective_cwd (customCwd : option string) (cwd : string) : string :=
  match customCwd with
  | Some s => if truthy s then s else cwd
  | None => cwd
  end.

Definition denial_text (userResponse : string) : string :=
  "Command execution was denied by the user. " ++
  (if negb (String.eqb userResponse "Deny") then "Feedback: " ++ userResponse
   else EmptyString).

Definition background_text (terminalId : nat) : string :=
  "Command started in background mode and is running in the terminal (id: " ++
  nat_to_string terminalId ++ "). " ++
  "You can check the output later using the get_terminal_output tool with this terminal id.".

(** [${result ? `\nOutput:\n${result}` : ""}] *)
Definition output_section (result : string) : string :=
  if truthy result then nl ++ "Output:" ++ nl ++ result else EmptyString.

Definition completed_text (terminalId : nat) (result : string) : string :=
  "Command executed in terminal (id: " ++ nat_to_string terminalId ++ ")." ++
  output_section result.

Definition timeoutMessage (timeout : Z) : string :=
  if negb (Z.eqb timeout DEFAULT_TIMEOUT)
  then " (timeout: " ++ Z_to_string timeout ++ "ms)"
  else EmptyString.

(** [${result ? `\nHere's the output so far:\n${result}` : ""}] *)
Definition partial_section (result : string) : string :=
  if truthy result then nl ++ "Here's the output so far:" ++ nl ++ result
  else EmptyString.

Definition poll_hint : string :=
  "You can check for more output later using the get_terminal_output tool with this terminal id.".

Definition running_text (terminalId : nat) (timeout : Z) (result : string) : string :=
  "Command is still running in terminal (id: " ++ nat_to_string terminalId ++ ")" ++
  timeoutMessage timeout ++ "." ++ partial_section result ++ nl ++ nl ++ poll_hint.

(** Everything [execute] does once the command may run (lines 73 to 138). *)
Definition run_command (w : World) (cwd command : string) (customCwd : option string)
    (background : bool) (timeout : Z) : M (bool * ToolResponse) :=
  terminalInfo <- getOrCreateTerminal (effective_cwd customCwd cwd) ;;
  emit (EShow (id terminalInfo)) ;;;
  emit (ERun (id terminalInfo) command) ;;;
  emit (EListen "line") ;;;
  emit (EListen "completed") ;;;
  emit (EListen "no_shell_integration") ;;;
  if background then
    ret (false, toolResult (background_text (id terminalInfo)))
  else
    emit (ETimer timeout) ;;;
    emit ERace ;;;
    emit (EDelay 50) ;;;
    let ls := deliver (w_observed w) in
    let result := trim (l_result ls) in
    let terminalId := id terminalInfo in
    if l_completed ls then
      ret (false, toolResult (completed_text terminalId result))
    else
      ret (false, toolResult (running_text terminalId timeout result)).

(** [ExecuteCommandTool.execute] *)
Definition execute (w : World) (cwd command : string) (customCwd : option string)
    (modifySomething background : bool) (timeout : Z) : M (bool * ToolResponse) :=
  emit (EGetConfig "mcpServer.confirmNonDestructiveCommands") ;;;
  let confirmNonDestructiveCommands := w_confirmNonDestructiveCommands w in
  let shouldConfirm := modifySomething || confirmNonDestructiveCommands in
  if shouldConfirm then
    userResponse <- ask w command ;;
    if negb (String.eqb userResponse "Approve") then
      ret (false, toolResult (denial_text userResponse))
    else run_command w cwd command customCwd background timeout
  else
    emit (ELog ("Executing read-only command without confirmation: " ++ command)) ;;;
    run_command w cwd command customCwd background timeout.

(** [execute] called with some arguments omitted: the TypeScript default
    parameters [modifySomething = true], [background = false] and
    [timeout = 300000]. *)
Definition execute_js (w : World) (cwd command : string) (customCwd : option string)
    (modifySomething background : option bool) (timeout : option Z) : M (bool * ToolResponse) :=
  execute w cwd command customCwd
    (match modifySomething with Some b => b | None => true end)
    (match background with Some b => b | None => false end)
    (match timeout with Some t => t | None => 300000%Z end).

(** ** The request schema *)

(** The JavaScript values a request field can hold ([JNum] for integral
    numbers). *)
Inductive JSValue :=
| JUndefined
| JNull
| JBool (b : bool)
| JNum (z : Z)
| JStr (s : string)
| JOther.

Definition JSObject := list (string * JSValue).

Definition field (obj : JSObject) (k : string) : JSValue :=
  match find (fun kv => String.eqb (fst kv) k) obj with
  | Some (_, v) => v
  | None => JUndefined
  end.

(** [z.string()] *)
Definition z_string (v : JSValue) : option string :=
  match v with JStr s => Some s | _ => None end.

(** [z.string().optional()] *)
Definition z_string_optional (v : JSValue) : option (option string) :=
  match v with JUndefined => Some None | JStr s => Some (Some s) | _ => None end.

(** [z.boolean().optional().default(d)] *)
Definition z_boolean_default (d : bool) (v : JSValue) : option bool :=
  match v with JUndefined => Some d | JBool b => Some b | _ => None end.

(** [z.number().optional().default(d)] *)
Definition z_number_default (d : Z) (v : JSValue) : option Z :=
  match v with JUndefined => Some d | JNum n => Some n | _ => None end.

(** [z.infer<typeof executeCommandSchema>] *)
Record Params := mkParams {
  p_command : string;
  p_customCwd : option string;
  p_modifySomething : bool;
  p_background : bool;
  p_timeout : Z
}.

(** [executeCommandSchema.parse]; [None] is a validation error. *)
Definition parse_executeCommandSchema (obj : JSObject) : option Params :=
  match z_string (field obj "command"),
        z_string_optional (field obj "customCwd"),
        z_boolean_default true (field obj "modifySomething"),
        z_boolean_default false (field obj "background"),
        z_number_default 300000 (field obj "timeout") with
  | Some c, Some cw, Some m, Some b, Some t => Some (mkParams c cw m b t)
  | _, _, _, _, _ => None
  end.

(** ** executeCommandToolHandler *)

Record HandlerResponse := mkHandlerResponse {
  isError : bool;
  content : list string
}.

(** [workspaceRoot] is [vscode.workspace.workspaceFolders?.[0]?.uri.fsPath].
    A fresh [ExecuteCommandTool] is built per request; the terminals it
    finds are those of the shared registry threaded through [M]. *)
Definition executeCommandToolHandler (w : World) (workspaceRoot : option string)
    (params : Params) : M HandlerResponse :=
  match workspaceRoot with
  | Some root =>
      if truthy root then
        p <- execute w root (p_command params) (p_customCwd params)
               (p_modifySomething params) (p_background params) (p_timeout params) ;;
        let '(success, response) := p in
        ret (mkHandlerResponse (negb success) [text response])
      else ret (mkHandlerResponse true ["No workspace folder is open"])
  | None => ret (mkHandlerResponse true ["No workspace folder is open"])
  end.

(** ** Extension activation (src/packages/extension/src/extension.ts) *)

Module Extension.

(** [vscode.env.remoteName === 'ssh-remote'] *)
Definition is_ssh_remote (remoteName : option string) : bool :=
  match remoteName with
  | Some s => String.eqb s "ssh-remote"
  | None => false
  end.



(** What [remoteConfig.get('portsAttributes', [])] returns: an array of
    port numbers, or a value that is no array (then [includes] throws a
    [TypeError]). *)
Inductive PortsValue :=
| PortsArray (ports : list Z)
| PortsNonArray.

(** The answers of VS Code during the port forwarding set-up of
    [activate]. *)
Record RemoteWorld := mkRemoteWorld {
  rw_remoteName : option string;
  (** [mcpServer.autoForwardPort] *)
  rw_autoForwardPort : bool;
  (** [executeCommand('remote.autoForwardPorts', true)] resolves *)
  rw_autoForward_ok : bool;
  (** [remoteConfig.update('portsAttributes', ...)] resolves *)
  rw_update_ok : bool;
  (** the rendering of a rejected call's error *)
  rw_error : string
}.

Definition forwarding_failed (err : string) : string :=
  "Failed to configure automatic port forwarding: " ++ err.

Definition includes_type_error : string :=
  "TypeError: portsToForward.includes is not a function".

(** The SSH block of [activate] (lines 117 to 136): the value of
    [remote.portsAttributes] written back (the one read when nothing is
    written) and the lines appended to the output channel. *)
Definition setup_port_forwarding (rw : RemoteWorld) (port : Z) (portsAttributes : PortsValue)
    : PortsValue * list string :=
  if is_ssh_remote (rw_remoteName rw) && rw_autoForwardPort rw then
    let l0 := "SSH Remote environment detected. Setting up automatic port forwarding." in
    if negb (rw_autoForward_ok rw) then
      (portsAttributes, [l0; forwarding_failed (rw_error rw)])
    else
      let l1 := "Automatic port forwarding enabled." in
      match portsAttributes with
      | PortsNonArray => (portsAttributes, [l0; l1; forwarding_failed includes_type_error])
      | PortsArray portsToForward =>
          if negb (existsb (Z.eqb port) portsToForward) then
            if rw_update_ok rw then
              (PortsArray (portsToForward ++ [port])%list,
               [l0; l1; "Added port " ++ Z_to_string port ++ " to auto-forward list."])
            else (portsAttributes, [l0; l1; forwarding_failed (rw_error rw)])
          else (portsAttributes, [l0; l1])
      end
  else (portsAttributes, []).

(** The effects of [startServer] up to the transport. *)
Inductive ExtEffect :=
| AppendLine (line : string)
| GetCommands
| ExecCommand (name : string) (port : Z)
| StartTransport (port : Z).

Record SSHWorld := mkSSHWorld {
  sw_remoteName : option string;
  (** what [vscode.commands.getCommands()] resolves to; [None] if it rejects *)
  sw_commands : option (list string);
  (** [executeCommand('remote-ssh.forwardPort', { port })] resolves *)
  sw_forward_ok : bool;
  sw_error : string
}.

Definition forwardPortCommand : string := "remote-ssh.forwardPort".

Definition forward_warning (err : string) : string :=
  "WARNING: Failed to set up port forwarding: " ++ err.

(** [startServer(port)] (lines 58 to 98); [StartTransport] stands for
    [new BidiHttpTransport(port, outputChannel)] and [mcpServer.connect]. *)
Definition startServer (sw : SSHWorld) (port : Z) : list ExtEffect :=
  ((if is_ssh_remote (sw_remoteName sw) then
      [AppendLine ("DEBUG: Detected SSH remote environment: " ++
                   match sw_remoteName sw with Some s => s | None => EmptyString end);
       AppendLine ("DEBUG: Checking if command '" ++ forwardPortCommand ++ "' is available");
       GetCommands] ++
      match sw_commands sw with
      | None => [AppendLine (forward_warning (sw_error sw))]
      | Some commands =>
          if existsb (String.eqb forwardPortCommand) commands then
            [AppendLine ("DEBUG: Attempting to forward port " ++ Z_to_string port);
             ExecCommand forwardPortCommand port] ++
            (if sw_forward_ok sw
             then [AppendLine ("DEBUG: Port " ++ Z_to_string port ++ " forwarding initiated")]
             else [AppendLine (forward_warning (sw_error sw))])
          else [AppendLine "WARNING: Port forwarding command not available. VSCode may automatically forward the port."]
      end ++
      [AppendLine "NOTE: VSCode typically auto-forwards ports in SSH environments. Proceeding..."]
    else []) ++
   [AppendLine ("DEBUG: Starting MCP Server on port " ++ Z_to_string port ++ "...");
    StartTransport port])%list.

End Extension.

(** ** Examples *)

Definition reg0 : Registry := mkRegistry [] 1.

Example echo_hi_runs :
  let w := mkWorld false "Approve" [Line "hi"; Completed] in
  fst (fst (execute w "/ws" "echo hi" None false false 300000 reg0)) =
  (false, toolResult ("Command executed in terminal (id: 1)." ++ nl ++ "Output:" ++ nl ++ "hi")).
Proof. reflexivity. Qed.

Example timeout_msg_example : timeoutMessage 5000 = " (timeout: 5000ms)".
Proof. reflexivity. Qed.

Example trim_example : trim ("  a b " ++ nl) = "a b".
Proof. reflexivity. Qed.

(** * Properties *)

(** ** String lemmas *)

Lemma str_app_assoc (a b c : string) : (a ++ b) ++ c = a ++ (b ++ c).
Proof. induction a as [|x a IH]; simpl; [reflexivity | now rewrite IH]. Qed.

Lemma str_app_nil_r (s : string) : s ++ EmptyString = s.
Proof. induction s as [|x s IH]; simpl; [reflexivity | now rewrite IH]. Qed.

Lemma trimEnd_app_nl (s : string) : trimEnd (s ++ nl) = trimEnd s.
Proof.
  induction s as [|c s IH]; simpl.
  - reflexivity.
  - now rewrite IH.
Qed.

Lemma trim_app_nl (s : string) : trim (s ++ nl) = trim s.
Proof. unfold trim. now rewrite trimEnd_app_nl. Qed.

(** [s] occurs inside [t]. *)
Definition contains (t s : string) : Prop := exists p q, t = p ++ s ++ q.

Lemma contains_app_r (a b s : string) : contains b s -> contains (a ++ b) s.
Proof.
  intros (p & q & ->). exists (a ++ p), q. now rewrite str_app_assoc.
Qed.

Lemma contains_here (s q : string) : contains (s ++ q) s.
Proof. now exists EmptyString, q. Qed.

(** ** Output accumulation *)

Fixpoint lines_of (evs : list proc_event) : list string :=
  match evs with
  | [] => []
  | Line l :: r => l :: lines_of r
  | _ :: r => lines_of r
  end.

Definition is_completed (ev : proc_event) : bool :=
  match ev with Completed => true | _ => false end.

(** The buffer after the handlers: every line followed by a newline. *)
Fixpoint lines_text (ls : list string) : string :=
  match ls with
  | [] => EmptyString
  | l :: r => l ++ nl ++ lines_text r
  end.

Lemma fold_on_event_result (evs : list proc_event) (ls : Listeners) :
  l_result (fold_left on_event evs ls) = l_result ls ++ lines_text (lines_of evs).
Proof.
  revert ls; induction evs as [|ev evs IH]; intros ls; simpl.
  - now rewrite str_app_nil_r.
  - rewrite IH. destruct ev; simpl; try reflexivity.
    now rewrite !str_app_assoc.
Qed.

Lemma fold_on_event_completed (evs : list proc_event) (ls : Listeners) :
  l_completed (fold_left on_event evs ls) = l_completed ls || existsb is_completed evs.
Proof.
  revert ls; induction evs as [|ev evs IH]; intros ls; simpl.
  - now rewrite orb_false_r.
  - rewrite IH. destruct ev; simpl; try reflexivity.
    now rewrite orb_true_r.
Qed.

Lemma deliver_result (evs : list proc_event) :
  l_result (deliver evs) = lines_text (lines_of evs).
Proof. unfold deliver. now rewrite fold_on_event_result. Qed.

Lemma deliver_completed (evs : list proc_event) :
  l_completed (deliver evs) = existsb is_completed evs.
Proof. unfold deliver. now rewrite fold_on_event_completed. Qed.

Lemma lines_text_concat (ls : list string) :
  ls <> [] -> lines_text ls = String.concat nl ls ++ nl.
Proof.
  induction ls as [|l r IH]; intros Hne; [congruence|].
  destruct r as [|l' r].
  - cbn [lines_text String.concat]. now rewrite str_app_nil_r.
  - change (String.concat nl (l :: l' :: r)) with (l ++ nl ++ String.concat nl (l' :: r)).
    change (lines_text (l :: l' :: r)) with (l ++ nl ++ lines_text (l' :: r)). rewrite IH by discriminate.
    now rewrite !str_app_assoc.
Qed.

(** The trimmed buffer is the trimmed newline-join of the lines. *)
Lemma trim_lines_text (ls : list string) :
  trim (lines_text ls) = trim (String.concat nl ls).
Proof.
  destruct ls as [|l r]; [reflexivity|].
  rewrite lines_text_concat by discriminate. apply trim_app_nl.
Qed.

(** ** Shape of a run *)

Lemma run_command_eq w cwd command customCwd background timeout r :
  run_command w cwd command customCwd background timeout r =
  let '(t, r') := acquire (effective_cwd customCwd cwd) r in
  let ls := deliver (w_observed w) in
  ((false, toolResult
      (if background then background_text (id t)
       else if l_completed ls then completed_text (id t) (trim (l_result ls))
       else running_text (id t) timeout (trim (l_result ls)))),
   r',
   [EAcquire (effective_cwd customCwd cwd) (id t); EShow (id t); ERun (id t) command;
    EListen "line"; EListen "completed"; EListen "no_shell_integration"] ++
   (if background then [] else [ETimer timeout; ERace; EDelay 50]))%list.
Proof.
  unfold run_command, bind, getOrCreateTerminal, emit, ret.
  destruct (acquire (effective_cwd customCwd cwd) r) as [t r'].
  destruct background, (l_completed (deliver (w_observed w))); reflexivity.
Qed.

Lemma execute_eq w cwd command customCwd modifySomething background timeout r :
  execute w cwd command customCwd modifySomething background timeout r =
  let cfg := EGetConfig "mcpServer.confirmNonDestructiveCommands" in
  if modifySomething || w_confirmNonDestructiveCommands w then
    if negb (String.eqb (w_user_answer w) "Approve") then
      ((false, toolResult (denial_text (w_user_answer w))), r, [cfg; EAsk command])
    else
      let '(res, r', tr) := run_command w cwd command customCwd background timeout r in
      (res, r', cfg :: EAsk command :: tr)
  else
    let '(res, r', tr) := run_command w cwd command customCwd background timeout r in
    (res, r', cfg :: ELog ("Executing read-only command without confirmation: " ++ command) :: tr).
Proof.
  unfold execute, ask, bind, emit, ret. simpl.
  destruct (modifySomething || w_confirmNonDestructiveCommands w);
    [destruct (negb (String.eqb (w_user_answer w) "Approve"))|];
    try reflexivity;
    destruct (run_command w cwd command customCwd background timeout r) as [[res r'] tr];
    reflexivity.
Qed.

(** The request may run: no confirmation is needed, or it was approved. *)
Definition proceeds (w : World) (modifySomething : bool) : Prop :=
  (modifySomething || w_confirmNonDestructiveCommands w) = false \/
  w_user_answer w = "Approve".

Lemma execute_proceeds w cwd command customCwd modifySomething background timeout r :
  proceeds w modifySomething ->
  exists pre,
    (forall e, In e pre -> is_wait e = false /\ is_session_work e = false) /\
    execute w cwd command customCwd modifySomething background timeout r =
    (let '(res, r', tr) := run_command w cwd command customCwd background timeout r in
     (res, r', pre ++ tr))%list.
Proof.
  intros Hp. rewrite execute_eq. cbv zeta.
  destruct (modifySomething || w_confirmNonDestructiveCommands w) eqn:Hc.
  - destruct Hp as [Hp | Hp]; [congruence|]. rewrite Hp. simpl.
    exists [EGetConfig "mcpServer.confirmNonDestructiveCommands"; EAsk command].
    split.
    + intros e [<- | [<- | []]]; simpl; auto.
    + now destruct (run_command w cwd command customCwd background timeout r) as [[res r'] tr].
  - exists [EGetConfig "mcpServer.confirmNonDestructiveCommands";
            ELog ("Executing read-only command without confirmation: " ++ command)].
    split.
    + intros e [<- | [<- | []]]; simpl; auto.
    + now destruct (run_command w cwd command customCwd background timeout r) as [[res r'] tr].
Qed.

(** ** Terminal acquisition *)

Lemma find_app_none {A} (p : A -> bool) (l : list A) (x : A) :
  find p l = None -> p x = true -> find p (l ++ [x]) = Some x.
Proof.
  intros Hn Hx. induction l as [|y l IH]; simpl in *.
  - now rewrite Hx.
  - destruct (p y); [discriminate | now apply IH].
Qed.

(** A second acquisition for the directory of the first one finds the
    terminal the first one returned and leaves the registry alone. *)
Lemma acquire_again (cwd : string) (r : Registry) (t : TerminalInfo) (r1 : Registry) :
  acquire cwd r = (t, r1) -> acquire cwd r1 = (t, r1).
Proof.
  unfold acquire. destruct (find _ (terminals r)) as [t0|] eqn:Hf.
  - intros [= <- <-]. now rewrite Hf.
  - intros [= <- <-]. simpl.
    rewrite (find_app_none _ _ _ Hf); [reflexivity|].
    simpl. apply String.eqb_refl.
Qed.

(** The terminal acquisitions an [execute] performs: at most one, for the
    effective working directory, and it is the only change of the
    registry. *)
Lemma execute_acquires w cwd command customCwd modifySomething background timeout r :
  let '(_, r', tr) := execute w cwd command customCwd modifySomething background timeout r in
  (forall d i, In (EAcquire d i) tr ->
     d = effective_cwd customCwd cwd /\
     exists t, acquire d r = (t, r') /\ id t = i) /\
  (proceeds w modifySomething ->
     exists t, acquire (effective_cwd customCwd cwd) r = (t, r') /\
               In (EAcquire (effective_cwd customCwd cwd) (id t)) tr).
Proof.
  rewrite execute_eq. cbv zeta.
  destruct (modifySomething || w_confirmNonDestructiveCommands w) eqn:Hc;
    [destruct (negb (String.eqb (w_user_answer w) "Approve")) eqn:Ha|].
  - split.
    + intros d i [H | [H | []]]; discriminate.
    + intros [Hp | Hp]; [congruence|].
      rewrite Hp in Ha. discriminate.
  - rewrite run_command_eq.
    destruct (acquire (effective_cwd customCwd cwd) r) as [t r'] eqn:Hacq.
    split.
    + intros d i Hin. simpl in Hin.
      destruct background; simpl in Hin;
        intuition (try discriminate);
        match goal with H : EAcquire _ _ = EAcquire _ _ |- _ => injection H as <- <- end;
        eauto.
    + intros _. exists t. split; [reflexivity|]. simpl. auto.
  - rewrite run_command_eq.
    destruct (acquire (effective_cwd customCwd cwd) r) as [t r'] eqn:Hacq.
    split.
    + intros d i Hin. simpl in Hin.
      destruct background; simpl in Hin;
        intuition (try discriminate);
        match goal with H : EAcquire _ _ = EAcquire _ _ |- _ => injection H as <- <- end;
        eauto.
    + intros _. exists t. split; [reflexivity|]. simpl. auto.
Qed.

(** ** Claims *)

(** The handler with a workspace root reports [isError = negb] of the
    first tuple element of [execute], which is always [false]. *)
Lemma handler_isError_with_root w root params r :
  truthy root = true ->
  isError (fst (fst (executeCommandToolHandler w (Some root) params r))) = true.
Proof.
  intros Hr. unfold executeCommandToolHandler. rewrite Hr.
  unfold bind, ret.
  destruct (execute w root _ _ _ _ _ r) as [[[success response] r'] tr] eqn:He.
  simpl.
  assert (Hs : success = false).
  { rewrite execute_eq in He. cbv zeta in He.
    destruct (_ || _); [destruct (negb _)|];
      [ injection He as <- _ _; reflexivity | | ];
      rewrite run_command_eq in He;
      destruct (acquire _ r) as [t r0]; injection He as <- _ _; reflexivity. }
  now rewrite Hs.
Qed.

(** C1: for the spec's scenario [{command: "echo hi", modifySomething: false}]
    with the override disabled and a workspace root, the command completes
    with output [hi], yet the handler answers [isError = true]: it negates
    the always-false rejection flag of [execute] as if it were a success
    flag. *)
Theorem echo_hi_handler_isError :
  let w := mkWorld false "Approve" [Line "hi"; Completed] in
  let params := mkParams "echo hi" None false false 300000 in
  executeCommandToolHandler w (Some "/ws") params reg0 =
  (mkHandlerResponse true
     ["Command executed in terminal (id: 1)." ++ nl ++ "Output:" ++ nl ++ "hi"],
   mkRegistry [mkTerminalInfo 1 "/ws" true] 2,
   [EGetConfig "mcpServer.confirmNonDestructiveCommands";
    ELog "Executing read-only command without confirmation: echo hi";
    EAcquire "/ws" 1; EShow 1; ERun 1 "echo hi";
    EListen "line"; EListen "completed"; EListen "no_shell_integration";
    ETimer 300000; ERace; EDelay 50]).
Proof. reflexivity. Qed.

(** C2: whatever the configuration, the human's answer, the background flag
    and the process events, the first element of the tuple [execute]
    returns is [false], also on an explicit denial. *)
Theorem execute_userRejected_false w cwd command customCwd modifySomething background timeout r :
  fst (fst (fst (execute w cwd command customCwd modifySomething background timeout r))) = false.
Proof.
  rewrite execute_eq. cbv zeta.
  destruct (_ || _); [destruct (negb _)|]; [reflexivity| |];
    rewrite run_command_eq; destruct (acquire _ r); reflexivity.
Qed.

(** C3: [execute] shows a confirmation prompt, and only for the command
    itself, exactly when [modifySomething] is true or the setting
    [confirmNonDestructiveCommands] is true. *)
Theorem execute_confirms_iff w cwd command customCwd modifySomething background timeout r :
  forall c,
    In (EAsk c) (snd (execute w cwd command customCwd modifySomething background timeout r)) <->
    c = command /\ (modifySomething || w_confirmNonDestructiveCommands w) = true.
Proof.
  intros c. rewrite execute_eq. cbv zeta.
  destruct (modifySomething || w_confirmNonDestructiveCommands w) eqn:Hc;
    [destruct (negb (String.eqb (w_user_answer w) "Approve"))|];
    try (rewrite run_command_eq; destruct (acquire _ r) as [t r']);
    simpl;
    (split; [ | intros [-> H]]);
    try (destruct background); simpl;
    intuition (try discriminate; try congruence).
Qed.

Definition background_hint : string :=
  "You can check the output later using the get_terminal_output tool with this terminal id.".

(** C4: a background request that may run returns without a timer, a race
    or a delay, and its text is the background message, which names the
    terminal it acquired and tells the caller to poll its output later. *)
Theorem execute_background_returns w cwd command customCwd modifySomething timeout r :
  proceeds w modifySomething ->
  let '(res, _, tr) := execute w cwd command customCwd modifySomething true timeout r in
  fst res = false /\
  (forall e, In e tr -> is_wait e = false) /\
  exists tid,
    In (EAcquire (effective_cwd customCwd cwd) tid) tr /\
    text (snd res) = background_text tid /\
    contains (text (snd res)) ("(id: " ++ nat_to_string tid ++ ")") /\
    contains (text (snd res)) background_hint.
Proof.
  intros Hp.
  destruct (execute_proceeds w cwd command customCwd modifySomething true timeout r Hp)
    as (pre & Hpre & ->).
  rewrite run_command_eq.
  destruct (acquire (effective_cwd customCwd cwd) r) as [t r'].
  simpl. split; [reflexivity|]. split.
  - intros e Hin. apply in_app_or in Hin as [Hin | Hin].
    + now apply Hpre.
    + simpl in Hin. intuition (subst; reflexivity).
  - exists (id t). split; [apply in_or_app; right; simpl; auto|].
    split; [reflexivity|]. unfold background_text. split.
    + exists "Command started in background mode and is running in the terminal ",
             (". " ++ background_hint).
      simpl. rewrite str_app_assoc. reflexivity.
    + exists ("Command started in background mode and is running in the terminal (id: " ++
              nat_to_string (id t) ++ "). "), EmptyString.
      rewrite str_app_nil_r, !str_app_assoc. reflexivity.
Qed.

Lemma execute_background_returns_witness :
  proceeds (mkWorld false "Approve" []) true /\
  let '(res, _, tr) := execute (mkWorld false "Approve" []) "/ws" "sleep 600" None true true
                         300000 reg0 in
  fst res = false /\
  (forall e, In e tr -> is_wait e = false) /\
  exists tid,
    In (EAcquire (effective_cwd None "/ws") tid) tr /\
    text (snd res) = background_text tid /\
    contains (text (snd res)) ("(id: " ++ nat_to_string tid ++ ")") /\
    contains (text (snd res)) background_hint.
Proof.
  assert (Hp : proceeds (mkWorld false "Approve" []) true) by (right; reflexivity).
  split; [exact Hp|].
  exact (execute_background_returns (mkWorld false "Approve" []) "/ws" "sleep 600" None true
           300000 reg0 Hp).
Defined.

(** C5: a required confirmation answered with anything but [Approve] makes
    [execute] return the denial text at once: the registry is unchanged,
    no terminal is acquired, shown or run, and a free-text answer (not
    [Deny]) appears verbatim after [Feedback: ]. *)
Theorem execute_denied_aborts w cwd command customCwd modifySomething background timeout r :
  (modifySomething || w_confirmNonDestructiveCommands w) = true ->
  w_user_answer w <> "Approve" ->
  let '(res, r', tr) := execute w cwd command customCwd modifySomething background timeout r in
  res = (false, toolResult (denial_text (w_user_answer w))) /\
  r' = r /\
  tr = [EGetConfig "mcpServer.confirmNonDestructiveCommands"; EAsk command] /\
  (forall e, In e tr -> is_session_work e = false /\ is_wait e = false) /\
  (w_user_answer w <> "Deny" ->
   contains (text (snd res)) ("Feedback: " ++ w_user_answer w)).
Proof.
  intros Hc Ha. rewrite execute_eq. cbv zeta. rewrite Hc.
  destruct (String.eqb (w_user_answer w) "Approve") eqn:He.
  { apply String.eqb_eq in He. contradiction. }
  simpl. split; [reflexivity|]. split; [reflexivity|]. split; [reflexivity|]. split.
  - intros e [<- | [<- | []]]; auto.
  - intros Hd. unfold denial_text.
    destruct (String.eqb (w_user_answer w) "Deny") eqn:Hd'.
    { apply String.eqb_eq in Hd'. contradiction. }
    simpl. exists "Command execution was denied by the user. ", EmptyString.
    now rewrite str_app_nil_r.
Qed.

Lemma execute_denied_aborts_witness :
  let w := mkWorld false "too risky" [] in
  let '(res, r', tr) := execute w "/ws" "rm -rf tmp" None true false 300000 reg0 in
  res = (false, toolResult (denial_text (w_user_answer w))) /\
  r' = reg0 /\
  tr = [EGetConfig "mcpServer.confirmNonDestructiveCommands"; EAsk "rm -rf tmp"] /\
  (forall e, In e tr -> is_session_work e = false /\ is_wait e = false) /\
  (w_user_answer w <> "Deny" ->
   contains (text (snd res)) ("Feedback: " ++ w_user_answer w)).
Proof.
  exact (execute_denied_aborts (mkWorld false "too risky" []) "/ws" "rm -rf tmp" None true false
           300000 reg0 eq_refl ltac:(simpl; discriminate)).
Defined.

(** C6: a foreground request that may run, whose delivered events carry the
    lines [ls] in this order and include the [completed] event, answers the
    completion message followed by the newline-join of [ls], trimmed; when
    that trimmed text is empty there is no output section. *)
Theorem execute_completed_output w cwd command customCwd modifySomething timeout r ls :
  proceeds w modifySomething ->
  lines_of (w_observed w) = ls ->
  existsb is_completed (w_observed w) = true ->
  let out := trim (String.concat nl ls) in
  let '(res, _, tr) := execute w cwd command customCwd modifySomething false timeout r in
  exists tid,
    In (EAcquire (effective_cwd customCwd cwd) tid) tr /\
    text (snd res) =
      "Command executed in terminal (id: " ++ nat_to_string tid ++ ")." ++
      (if truthy out then nl ++ "Output:" ++ nl ++ out else EmptyString) /\
    (out = EmptyString ->
     text (snd res) = "Command executed in terminal (id: " ++ nat_to_string tid ++ ").") /\
    (truthy out = true -> contains (text (snd res)) out).
Proof.
  intros Hp Hl Hc out.
  destruct (execute_proceeds w cwd command customCwd modifySomething false timeout r Hp)
    as (pre & _ & ->).
  rewrite run_command_eq.
  destruct (acquire (effective_cwd customCwd cwd) r) as [t r'].
  cbv zeta. rewrite deliver_completed, Hc, deliver_result, Hl, trim_lines_text.
  fold out. simpl.
  exists (id t). split; [apply in_or_app; right; simpl; auto|].
  unfold completed_text, output_section.
  split; [reflexivity|]. split.
  - intros ->. simpl. now rewrite ?str_app_nil_r.
  - intros Ht. rewrite Ht.
    exists ("Command executed in terminal (id: " ++ nat_to_string (id t) ++ ")." ++
            nl ++ "Output:" ++ nl), EmptyString.
    rewrite str_app_nil_r, !str_app_assoc. reflexivity.
Qed.

Lemma execute_completed_output_witness :
  let w := mkWorld false "Approve" [Line "a"; Line "b "; Completed] in
  let out := trim (String.concat nl ["a"; "b "]) in
  let '(res, _, tr) := execute w "/ws" "printf" None false false 300000 reg0 in
  exists tid,
    In (EAcquire (effective_cwd None "/ws") tid) tr /\
    text (snd res) =
      "Command executed in terminal (id: " ++ nat_to_string tid ++ ")." ++
      (if truthy out then nl ++ "Output:" ++ nl ++ out else EmptyString) /\
    (out = EmptyString ->
     text (snd res) = "Command executed in terminal (id: " ++ nat_to_string tid ++ ").") /\
    (truthy out = true -> contains (text (snd res)) out).
Proof.
  exact (execute_completed_output (mkWorld false "Approve" [Line "a"; Line "b "; Completed])
           "/ws" "printf" None false 300000 reg0 ["a"; "b "]
           (or_introl eq_refl) eq_refl eq_refl).
Defined.

(** The timeout note appears exactly when the timeout is not the default. *)
Lemma timeoutMessage_empty_iff (timeout : Z) :
  timeoutMessage timeout = EmptyString <-> timeout = DEFAULT_TIMEOUT.
Proof.
  unfold timeoutMessage. destruct (Z.eqb timeout DEFAULT_TIMEOUT) eqn:He; simpl.
  - apply Z.eqb_eq in He. tauto.
  - apply Z.eqb_neq in He. split; [discriminate | intros; contradiction].
Qed.

(** C7: a foreground request that may run, whose delivered events do not
    include [completed], answers that the command is still running in its
    terminal, with the timeout note ([ (timeout: Nms)]) present exactly when
    the timeout is not 300000, the trimmed partial output when there is
    some, and the instruction to poll with the terminal id. *)
Theorem execute_still_running w cwd command customCwd modifySomething timeout r :
  proceeds w modifySomething ->
  existsb is_completed (w_observed w) = false ->
  let out := trim (String.concat nl (lines_of (w_observed w))) in
  let '(res, _, tr) := execute w cwd command customCwd modifySomething false timeout r in
  exists tid,
    In (EAcquire (effective_cwd customCwd cwd) tid) tr /\
    text (snd res) =
      "Command is still running in terminal (id: " ++ nat_to_string tid ++ ")" ++
      timeoutMessage timeout ++ "." ++ partial_section out ++ nl ++ nl ++ poll_hint /\
    (truthy out = true -> contains (text (snd res)) out) /\
    contains (text (snd res)) poll_hint /\
    (timeout <> DEFAULT_TIMEOUT ->
     timeoutMessage timeout = " (timeout: " ++ Z_to_string timeout ++ "ms)") /\
    (timeout = DEFAULT_TIMEOUT -> timeoutMessage timeout = EmptyString).
Proof.
  intros Hp Hc out.
  destruct (execute_proceeds w cwd command customCwd modifySomething false timeout r Hp)
    as (pre & _ & ->).
  rewrite run_command_eq.
  destruct (acquire (effective_cwd customCwd cwd) r) as [t r'].
  cbv zeta. rewrite deliver_completed, Hc, deliver_result, trim_lines_text.
  fold out. simpl.
  exists (id t). split; [apply in_or_app; right; simpl; auto|].
  unfold running_text. split; [reflexivity|]. split; [|split; [|split]].
  - intros Ht. unfold partial_section. rewrite Ht.
    exists ("Command is still running in terminal (id: " ++ nat_to_string (id t) ++ ")" ++
            timeoutMessage timeout ++ "." ++ nl ++ "Here's the output so far:" ++ nl),
           (nl ++ nl ++ poll_hint).
    rewrite !str_app_assoc. reflexivity.
  - exists ("Command is still running in terminal (id: " ++ nat_to_string (id t) ++ ")" ++
            timeoutMessage timeout ++ "." ++ partial_section out ++ nl ++ nl), EmptyString.
    rewrite str_app_nil_r, !str_app_assoc. reflexivity.
  - intros Hne. unfold timeoutMessage.
    destruct (Z.eqb timeout DEFAULT_TIMEOUT) eqn:He; [apply Z.eqb_eq in He; contradiction|].
    reflexivity.
  - apply timeoutMessage_empty_iff.
Qed.

Lemma execute_still_running_witness :
  let w := mkWorld true "Approve" [Line "partial"; NoShellIntegration] in
  let out := trim (String.concat nl (lines_of (w_observed w))) in
  let '(res, _, tr) := execute w "/ws" "npm start" None false false 5000 reg0 in
  exists tid,
    In (EAcquire (effective_cwd None "/ws") tid) tr /\
    text (snd res) =
      "Command is still running in terminal (id: " ++ nat_to_string tid ++ ")" ++
      timeoutMessage 5000 ++ "." ++ partial_section out ++ nl ++ nl ++ poll_hint /\
    (truthy out = true -> contains (text (snd res)) out) /\
    contains (text (snd res)) poll_hint /\
    (5000%Z <> DEFAULT_TIMEOUT ->
     timeoutMessage 5000 = " (timeout: " ++ Z_to_string 5000 ++ "ms)") /\
    (5000%Z = DEFAULT_TIMEOUT -> timeoutMessage 5000 = EmptyString).
Proof.
  exact (execute_still_running (mkWorld true "Approve" [Line "partial"; NoShellIntegration])
           "/ws" "npm start" None false 5000 reg0 (or_intror eq_refl) eq_refl).
Defined.

(** C8: acquiring a terminal twice for one working directory returns the
    same terminal, and two successive [execute] calls that acquire a
    terminal for the same effective working directory get the same
    terminal id. *)
Theorem acquire_idempotent :
  (forall cwd r,
     let '(t1, r1) := acquire cwd r in
     let '(t2, r2) := acquire cwd r1 in
     id t2 = id t1 /\ tcwd t1 = cwd /\ r2 = r1) /\
  (forall w1 w2 cwd1 cwd2 command1 command2 customCwd1 customCwd2
          modify1 modify2 background1 background2 timeout1 timeout2 r,
     let '(_, r1, tr1) :=
       execute w1 cwd1 command1 customCwd1 modify1 background1 timeout1 r in
     let '(_, _, tr2) :=
       execute w2 cwd2 command2 customCwd2 modify2 background2 timeout2 r1 in
     forall d id1 id2,
       In (EAcquire d id1) tr1 -> In (EAcquire d id2) tr2 -> id2 = id1).
Proof.
  split.
  - intros cwd r.
    destruct (acquire cwd r) as [t1 r1] eqn:H1.
    rewrite (acquire_again _ _ _ _ H1).
    split; [reflexivity|]. split; [|reflexivity].
    revert H1. unfold acquire.
    destruct (find _ (terminals r)) as [t|] eqn:Hf.
    + intros [= <- _]. apply find_some in Hf as [_ Hf].
      apply andb_prop in Hf as [_ Hf]. now apply String.eqb_eq.
    + now intros [= <- _].
  - intros.
    pose proof (execute_acquires w1 cwd1 command1 customCwd1 modify1 background1 timeout1 r)
      as Ha1.
    destruct (execute w1 cwd1 command1 customCwd1 modify1 background1 timeout1 r)
      as [[res1 r1] tr1].
    pose proof (execute_acquires w2 cwd2 command2 customCwd2 modify2 background2 timeout2 r1)
      as Ha2.
    destruct (execute w2 cwd2 command2 customCwd2 modify2 background2 timeout2 r1)
      as [[res2 r2] tr2].
    intros d id1 id2 Hin1 Hin2.
    destruct Ha1 as [Ha1 _]. destruct Ha2 as [Ha2 _].
    destruct (Ha1 d id1 Hin1) as (_ & t & Hacq1 & <-).
    destruct (Ha2 d id2 Hin2) as (_ & t' & Hacq2 & <-).
    rewrite (acquire_again _ _ _ _ Hacq1) in Hacq2.
    now injection Hacq2 as <- _.
Qed.

Lemma acquire_idempotent_witness :
  let w := mkWorld false "Approve" [Completed] in
  let '(_, r1, tr1) := execute w "/ws" "ls" None false false 300000 reg0 in
  let '(_, _, tr2) := execute w "/ws" "pwd" (Some EmptyString) false false 300000 r1 in
  In (EAcquire "/ws" 1) tr1 /\ (forall i, In (EAcquire "/ws" i) tr2 -> i = 1).
Proof.
  pose proof (proj2 acquire_idempotent (mkWorld false "Approve" [Completed])
                (mkWorld false "Approve" [Completed]) "/ws" "/ws" "ls" "pwd"
                None (Some EmptyString) false false false false 300000%Z 300000%Z reg0) as H.
  simpl in H |- *.
  split; [auto 20|].
  intros i Hi. apply (H "/ws" 1 i); auto 20.
Defined.

(** C9: at the request boundary, an omitted [modifySomething] is [true],
    an omitted [background] is [false], an omitted [timeout] is 300000,
    and a request without a string [command] is rejected; the TypeScript
    defaults of [execute] are the same. *)
Theorem schema_defaults :
  (forall obj p,
     parse_executeCommandSchema obj = Some p ->
     field obj "command" = JStr (p_command p) /\
     (field obj "modifySomething" = JUndefined -> p_modifySomething p = true) /\
     (field obj "background" = JUndefined -> p_background p = false) /\
     (field obj "timeout" = JUndefined -> p_timeout p = 300000%Z)) /\
  (forall obj,
     (forall s, field obj "command" <> JStr s) -> parse_executeCommandSchema obj = None) /\
  (forall obj c,
     field obj "command" = JStr c ->
     field obj "customCwd" = JUndefined ->
     field obj "modifySomething" = JUndefined ->
     field obj "background" = JUndefined ->
     field obj "timeout" = JUndefined ->
     parse_executeCommandSchema obj = Some (mkParams c None true false 300000)) /\
  (forall w cwd command customCwd,
     execute_js w cwd command customCwd None None None =
     execute w cwd command customCwd true false 300000).
Proof.
  split; [|split; [|split]].
  - intros obj p. unfold parse_executeCommandSchema.
    destruct (field obj "command") eqn:Hc; try discriminate. simpl.
    destruct (z_string_optional (field obj "customCwd")); [|discriminate].
    destruct (field obj "modifySomething"); try discriminate;
    destruct (field obj "background"); try discriminate;
    destruct (field obj "timeout"); try discriminate;
    simpl; intros [= <-]; simpl; repeat split; discriminate.
  - intros obj Hn. unfold parse_executeCommandSchema.
    destruct (field obj "command") eqn:Hc; try reflexivity.
    exfalso. exact (Hn s eq_refl).
  - intros obj c Hc Hcw Hm Hb Ht. unfold parse_executeCommandSchema.
    now rewrite Hc, Hcw, Hm, Hb, Ht.
  - reflexivity.
Qed.

Lemma schema_defaults_witness :
  parse_executeCommandSchema [("command", JStr "echo hi")] =
    Some (mkParams "echo hi" None true false 300000) /\
  parse_executeCommandSchema [("background", JBool true)] = None.
Proof.
  destruct schema_defaults as (_ & Hnone & Hsome & _).
  split.
  - apply Hsome; reflexivity.
  - apply Hnone. simpl. discriminate.
Defined.

(** C10: a request that may run with [customCwd = ""] acquires its
    terminal for the configured root [cwd], and only for it; a non-empty
    [customCwd] is used as given. *)
Theorem empty_customCwd_uses_root w cwd command modifySomething background timeout r :
  proceeds w modifySomething ->
  (let '(_, r', tr) := execute w cwd command (Some EmptyString) modifySomething background timeout r in
   exists t, acquire cwd r = (t, r') /\ In (EAcquire cwd (id t)) tr /\
     forall d i, In (EAcquire d i) tr -> d = cwd) /\
  (forall s, s <> EmptyString ->
   let '(_, r', tr) := execute w cwd command (Some s) modifySomething background timeout r in
   exists t, acquire s r = (t, r') /\ In (EAcquire s (id t)) tr /\
     forall d i, In (EAcquire d i) tr -> d = s).
Proof.
  intros Hp. split.
  - pose proof (execute_acquires w cwd command (Some EmptyString) modifySomething background
                  timeout r) as Ha.
    destruct (execute w cwd command (Some EmptyString) modifySomething background timeout r)
      as [[res r'] tr].
    destruct Ha as [Hall Hex]. destruct (Hex Hp) as (t & Hacq & Hin).
    exists t. split; [exact Hacq|]. split; [exact Hin|].
    intros d i Hdi. exact (proj1 (Hall d i Hdi)).
  - intros s Hs.
    assert (He : effective_cwd (Some s) cwd = s) by (destruct s; [contradiction|reflexivity]).
    pose proof (execute_acquires w cwd command (Some s) modifySomething background
                  timeout r) as Ha.
    destruct (execute w cwd command (Some s) modifySomething background timeout r)
      as [[res r'] tr].
    rewrite He in Ha.
    destruct Ha as [Hall Hex]. destruct (Hex Hp) as (t & Hacq & Hin).
    exists t. split; [exact Hacq|]. split; [exact Hin|].
    intros d i Hdi. exact (proj1 (Hall d i Hdi)).
Qed.

Lemma empty_customCwd_uses_root_witness :
  proceeds (mkWorld false "Approve" []) false /\
  let '(_, r', tr) := execute (mkWorld false "Approve" []) "/ws" "ls" (Some EmptyString)
                        false false 300000 reg0 in
  exists t, acquire "/ws" reg0 = (t, r') /\ In (EAcquire "/ws" (id t)) tr /\
    forall d i, In (EAcquire d i) tr -> d = "/ws".
Proof.
  assert (Hp : proceeds (mkWorld false "Approve" []) false) by (left; reflexivity).
  split; [exact Hp|].
  exact (proj1 (empty_customCwd_uses_root (mkWorld false "Approve" []) "/ws" "ls" false false
                  300000 reg0 Hp)).
Defined.

(** * Further properties of the code *)

(** ** execute *)





(** A background request neither reads the process events nor uses the
    timeout: its answer, registry and effects are the same for any events
    and any timeout. *)
Theorem execute_background_ignores_events_and_timeout
    cfg answer evs1 evs2 cwd command customCwd modifySomething t1 t2 r :
  execute (mkWorld cfg answer evs1) cwd command customCwd modifySomething true t1 r =
  execute (mkWorld cfg answer evs2) cwd command customCwd modifySomething true t2 r.
Proof.
  rewrite !execute_eq. simpl. rewrite !run_command_eq. simpl. reflexivity.
Qed.

(** When the command has completed, the timeout does not show in the
    answer: two timeouts give the same tuple and the same registry. *)
Theorem execute_completed_ignores_timeout w cwd command customCwd modifySomething t1 t2 r :
  existsb is_completed (w_observed w) = true ->
  fst (execute w cwd command customCwd modifySomething false t1 r) =
  fst (execute w cwd command customCwd modifySomething false t2 r).
Proof.
  intros Hc. rewrite !execute_eq. cbv zeta.
  destruct (_ || _); [destruct (negb _)|]; try reflexivity;
    rewrite !run_command_eq; destruct (acquire _ r); cbv zeta;
    rewrite deliver_completed, Hc; reflexivity.
Qed.

Lemma execute_completed_ignores_timeout_witness :
  fst (execute (mkWorld false "Approve" [Line "ok"; Completed]) "/ws" "ls" None false false 10 reg0) =
  fst (execute (mkWorld false "Approve" [Line "ok"; Completed]) "/ws" "ls" None false false 300000 reg0).
Proof.
  exact (execute_completed_ignores_timeout (mkWorld false "Approve" [Line "ok"; Completed])
           "/ws" "ls" None false 10 300000 reg0 eq_refl).
Defined.

(** ** executeCommandToolHandler *)





(** ** executeCommandSchema *)

(** A field that is present with its type is taken as given, overriding
    the default. *)
Theorem schema_present_values obj p :
  parse_executeCommandSchema obj = Some p ->
  (forall s, field obj "customCwd" = JStr s -> p_customCwd p = Some s) /\
  (field obj "customCwd" = JUndefined -> p_customCwd p = None) /\
  (forall b, field obj "modifySomething" = JBool b -> p_modifySomething p = b) /\
  (forall b, field obj "background" = JBool b -> p_background p = b) /\
  (forall n, field obj "timeout" = JNum n -> p_timeout p = n).
Proof.
  unfold parse_executeCommandSchema.
  destruct (z_string (field obj "command")); [|discriminate].
  destruct (field obj "customCwd") eqn:Hcw; try discriminate;
  destruct (field obj "modifySomething") eqn:Hm; try discriminate;
  destruct (field obj "background") eqn:Hb; try discriminate;
  destruct (field obj "timeout") eqn:Ht; try discriminate;
  simpl; intros [= <-]; simpl;
  repeat split; intros; congruence.
Qed.

Lemma schema_present_values_witness :
  let obj := [("command", JStr "npm start"); ("customCwd", JStr "/srv");
              ("background", JBool true); ("timeout", JNum 1000)] in
  parse_executeCommandSchema obj = Some (mkParams "npm start" (Some "/srv") true true 1000) /\
  p_timeout (mkParams "npm start" (Some "/srv") true true 1000) = 1000%Z.
Proof.
  split; [reflexivity|].
  apply (schema_present_values
           [("command", JStr "npm start"); ("customCwd", JStr "/srv");
            ("background", JBool true); ("timeout", JNum 1000)]
           (mkParams "npm start" (Some "/srv") true true 1000) eq_refl).
  reflexivity.
Defined.

(** [null] is not an omitted field: a request with any of its fields set
    to [null] fails validation instead of taking the default. *)
Theorem schema_rejects_null obj k :
  In k ["command"; "customCwd"; "modifySomething"; "background"; "timeout"] ->
  field obj k = JNull ->
  parse_executeCommandSchema obj = None.
Proof.
  intros Hk Hn. unfold parse_executeCommandSchema.
  simpl in Hk.
  destruct Hk as [<- | [<- | [<- | [<- | [<- | []]]]]]; rewrite Hn; simpl;
    repeat match goal with |- context [match ?x with _ => _ end] => destruct x end;
    reflexivity.
Qed.

Lemma schema_rejects_null_witness :
  parse_executeCommandSchema [("command", JStr "ls"); ("timeout", JNull)] = None.
Proof.
  exact (schema_rejects_null [("command", JStr "ls"); ("timeout", JNull)] "timeout"
           ltac:(simpl; tauto) eq_refl).
Defined.

(** ** The terminal registry across requests *)

Definition registry_ok (r : Registry) : Prop :=
  NoDup (map id (terminals r)) /\ Forall (fun t => id t < next_id r) (terminals r).

Lemma acquire_registry_ok cwd r :
  registry_ok r ->
  registry_ok (snd (acquire cwd r)) /\
  exists added, terminals (snd (acquire cwd r)) = (terminals r ++ added)%list.
Proof.
  intros [Hnd Hlt]. unfold acquire.
  destruct (find _ (terminals r)); simpl.
  - split; [split; assumption|]. exists []. now rewrite app_nil_r.
  - split; [unfold registry_ok; simpl; split|].
    + rewrite map_app. simpl. apply NoDup_app; [exact Hnd| constructor; [simpl; tauto|constructor] |].
      intros x Hx Hin. simpl in Hin. destruct Hin as [Heq | []].
      apply in_map_iff in Hx as (t & Hxt & Ht).
      rewrite Forall_forall in Hlt. specialize (Hlt t Ht). lia.
    + apply Forall_app. split.
      * eapply Forall_impl; [|exact Hlt]. simpl. intros; lia.
      * constructor; [simpl; lia | constructor].
    + eexists. reflexivity.
Qed.

Lemma execute_registry w cwd command customCwd modifySomething background timeout r :
  snd (fst (execute w cwd command customCwd modifySomething background timeout r)) = r \/
  snd (fst (execute w cwd command customCwd modifySomething background timeout r)) =
  snd (acquire (effective_cwd customCwd cwd) r).
Proof.
  rewrite execute_eq. cbv zeta.
  destruct (_ || _); [destruct (negb _)|]; [left; reflexivity| |];
    rewrite run_command_eq; destruct (acquire _ r) eqn:Ha; right; reflexivity.
Qed.

(** Spec-modelled registry: every [execute] keeps the terminal ids
    distinct and below the next fresh id, and only ever appends to the
    terminals it had: no terminal is removed or changed. *)
Theorem execute_keeps_registry_ok w cwd command customCwd modifySomething background timeout r :
  registry_ok r ->
  let r' := snd (fst (execute w cwd command customCwd modifySomething background timeout r)) in
  registry_ok r' /\ exists added, terminals r' = (terminals r ++ added)%list.
Proof.
  intros Hok r'. subst r'.
  destruct (execute_registry w cwd command customCwd modifySomething background timeout r)
    as [-> | ->].
  - split; [exact Hok|]. exists []. now rewrite app_nil_r.
  - now apply acquire_registry_ok.
Qed.

Lemma execute_keeps_registry_ok_witness :
  registry_ok reg0 /\
  let r' := snd (fst (execute (mkWorld false "Approve" []) "/ws" "ls" None false true 300000 reg0)) in
  registry_ok r' /\ exists added, terminals r' = (terminals reg0 ++ added)%list.
Proof.
  assert (H0 : registry_ok reg0) by (split; constructor).
  split; [exact H0|].
  exact (execute_keeps_registry_ok (mkWorld false "Approve" []) "/ws" "ls" None false true
           300000 reg0 H0).
Defined.

(** ** Extension activation *)

Module ExtensionFacts.
Import Extension.





(** In an SSH remote with forwarding on and every call succeeding, the
    port ends up in [remote.portsAttributes]: it is appended when absent and
    the list is left alone when present, so running the set-up again
    changes nothing. *)
Theorem setup_port_forwarding_adds_once rw port ports :
  is_ssh_remote (rw_remoteName rw) = true ->
  rw_autoForwardPort rw = true ->
  rw_autoForward_ok rw = true ->
  rw_update_ok rw = true ->
  let ports' := fst (setup_port_forwarding rw port (PortsArray ports)) in
  ports' = PortsArray (if existsb (Z.eqb port) ports then ports else ports ++ [port])%list /\
  fst (setup_port_forwarding rw port ports') = ports' /\
  (exists ps, ports' = PortsArray ps /\ In port ps).
Proof.
  intros Hs Ha Hok Hu ports'. subst ports'.
  unfold setup_port_forwarding. rewrite Hs, Ha, Hok, Hu. simpl.
  destruct (existsb (Z.eqb port) ports) eqn:He; simpl.
  - rewrite ?He. simpl. split; [reflexivity|]. split; [reflexivity|].
    exists ports. split; [reflexivity|].
    apply existsb_exists in He as (x & Hx & Hxe). apply Z.eqb_eq in Hxe. now subst.
  - assert (Hin : existsb (Z.eqb port) (ports ++ [port])%list = true).
    { apply existsb_exists. exists port. rewrite in_app_iff. simpl.
      split; [tauto | apply Z.eqb_refl]. }
    rewrite Hin. simpl. split; [reflexivity|]. split; [reflexivity|].
    eexists. split; [reflexivity|]. rewrite in_app_iff. simpl. tauto.
Qed.

Lemma setup_port_forwarding_adds_once_witness :
  let rw := mkRemoteWorld (Some "ssh-remote") true true true EmptyString in
  let ports' := fst (setup_port_forwarding rw 60100 (PortsArray [3000%Z])) in
  ports' = PortsArray (if existsb (Z.eqb 60100) [3000%Z] then [3000%Z] else [3000%Z] ++ [60100%Z])%list /\
  fst (setup_port_forwarding rw 60100 ports') = ports' /\
  (exists ps, ports' = PortsArray ps /\ In 60100%Z ps).
Proof.
  exact (setup_port_forwarding_adds_once (mkRemoteWorld (Some "ssh-remote") true true true EmptyString)
           60100 [3000%Z] eq_refl eq_refl eq_refl eq_refl).
Defined.

(** Whatever the environment answers, the set-up never removes, changes or
    reorders ports: the setting it leaves is the one it read, or that array
    with the port appended when the port was absent from it. *)
Theorem setup_port_forwarding_only_appends rw port ports :
  let '(ports', log) := setup_port_forwarding rw port ports in
  ports' = ports \/
  (exists ps, ports = PortsArray ps /\ ports' = PortsArray (ps ++ [port])%list /\
              existsb (Z.eqb port) ps = false).
Proof.
  unfold setup_port_forwarding.
  destruct (_ && _); [|left; reflexivity].
  destruct (negb (rw_autoForward_ok rw)); [left; reflexivity|].
  destruct ports as [ps|]; [|left; reflexivity].
  destruct (existsb (Z.eqb port) ps) eqn:He; simpl; [left; reflexivity|].
  destruct (rw_update_ok rw); [right; eauto | left; reflexivity].
Qed.



(** [startServer] always goes on to start the transport on its port, after
    logging that it starts, whatever happens while it sets up SSH port
    forwarding. *)
Theorem startServer_always_starts sw port :
  exists pre,
    startServer sw port =
    (pre ++ [AppendLine ("DEBUG: Starting MCP Server on port " ++ Z_to_string port ++ "...");
             StartTransport port])%list /\
    (forall p, ~ In (StartTransport p) pre).
Proof.
  unfold startServer.
  eexists. split; [reflexivity|].
  intros p Hin.
  destruct (is_ssh_remote (sw_remoteName sw)); [|exact Hin].
  repeat (rewrite in_app_iff in Hin || simpl in Hin).
  destruct (sw_commands sw) as [cmds|]; simpl in Hin;
    [destruct (existsb _ cmds); [destruct (sw_forward_ok sw)|]|];
    simpl in Hin; repeat (rewrite in_app_iff in Hin || simpl in Hin);
    intuition discriminate.
Qed.

(** [startServer] asks VS Code to forward the port exactly when it runs in
    an SSH remote whose command list has [remote-ssh.forwardPort], and then
    for its own port only. *)
Theorem startServer_forwards_iff sw port p :
  In (ExecCommand forwardPortCommand p) (startServer sw port) <->
  p = port /\ is_ssh_remote (sw_remoteName sw) = true /\
  exists cmds, sw_commands sw = Some cmds /\ In forwardPortCommand cmds.
Proof.
  unfold startServer.
  destruct (is_ssh_remote (sw_remoteName sw)) eqn:Hs.
  - destruct (sw_commands sw) as [cmds|] eqn:Hc.
    + destruct (existsb (String.eqb forwardPortCommand) cmds) eqn:He.
      * assert (Hin : In forwardPortCommand cmds).
        { apply existsb_exists in He as (x & Hx & Hxe). apply String.eqb_eq in Hxe.
          now subst. }
        destruct (sw_forward_ok sw); simpl;
          (split; [intros H; repeat destruct H as [H | H]; try discriminate;
                   try contradiction; injection H as <-; eauto
                  | intros (-> & _); tauto]).
      * simpl. split.
        -- intros H. intuition discriminate.
        -- intros (_ & _ & cmds' & Hc' & Hin). injection Hc' as <-.
           assert (existsb (String.eqb forwardPortCommand) cmds = true)
             by (apply existsb_exists; exists forwardPortCommand; split;
                 [exact Hin | apply String.eqb_refl]).
           congruence.
    + simpl. split.
      * intros H. intuition discriminate.
      * intros (_ & _ & cmds & Hc' & _). discriminate.
  - simpl. split.
    + intros H. intuition discriminate.
    + intros (_ & Hf & _). discriminate.
Qed.

End ExtensionFacts.
